(** * Product backend: create and list routes

    A shallow embedding of [src/index.js]: an Express application with two
    routes over one Mongoose collection, with the image of each product
    uploaded to Cloudinary by Multer before the create handler runs.

    The three libraries are external to the repository.  What the file
    configures (the file filter, the size limit, the schema, the handlers and
    the error middleware) is transcribed; what the libraries and the JavaScript
    runtime compute on their own (string trimming, string-to-number
    conversion, Cloudinary's URL construction) is a parameter, see
    [Platform].

    A request is a step on the server state: the collection behind the
    database connection, the file parts handed to the media service and
    those whose removal was asked of it.
    What the outside world decides during a request (the reply of the media
    service, the identifier and the clock reading of a new document) comes
    with the request as its [Env]. *)

From Stdlib Require Import String Ascii List NArith ZArith Bool Lia.
From Stdlib Require Import Permutation Sorted.
From Stdlib Require Import DecimalString.
Import ListNotations.

Open Scope string_scope.
Open Scope N_scope.

(** ** Runtime and library primitives *)

(** The options object given to [cloudinary.url] at both call sites. *)
Record url_options := {
  fetch_format : string;
  quality : string
}.

(** - [Num] is the JavaScript number type and [to_number s] is [Number(s)],
      with [None] for [NaN];
    - [num_ge_zero v] is [v >= 0], the test of the schema's [min: 0];
    - [js_trim] is [String.prototype.trim], the schema's [trim: true];
    - [cloudinary_url] is [cloudinary.url] under the process-wide
      configuration of lines 22-26. *)
Class Platform := {
  Num : Type;
  to_number : string -> option Num;
  num_ge_zero : Num -> bool;
  js_trim : string -> string;
  cloudinary_url : string -> url_options -> string
}.

(** The outcome of the validators of one schema path. *)
Inductive verror := Required | CastFailed | NotInEnum | BelowMin.

Inductive verdict (A : Type) :=
| Valid (a : A)
| Invalid (e : verror).
Arguments Valid {A} a.
Arguments Invalid {A} e.

Section Backend.

Context {P : Platform}.

(** ** Data model (lines 64-84) *)

Record Image := {
  public_id : string;
  url : string;
  cdn_url : option string
}.

(** A stored document: the schema's paths, the identifier and version key
    Mongoose adds, and the two timestamps of [timestamps: true]
    (milliseconds). *)
Record Product := {
  _id : string;
  name : string;
  description : string;
  price : Num;
  category : string;
  isFeatured : bool;
  image : Image;
  createdAt : N;
  updatedAt : N;
  __v : N
}.

(** The connection is process-wide; a query on a connection that is down
    rejects.  The collection keeps its documents in insertion order. *)
Inductive Database :=
| Connected (docs : list Product)
| Disconnected (docs : list Product).

Definition collection (d : Database) : list Product :=
  match d with
  | Connected docs => docs
  | Disconnected docs => docs
  end.

(** ** Requests and responses *)

(** The file part of the multipart form, as Multer sees it before storage. *)
Record file_part := {
  originalname : string;
  mimetype : string;
  size : N
}.

(** [req.body]: the text fields of the form; an absent field is
    [undefined]. *)
Record Body := {
  body_name : option string;
  body_description : option string;
  body_price : option string;
  body_category : option string;
  body_isFeatured : option string
}.

(** A create request: a multipart form with its text fields and at most one
    file part, in the field [image]. *)
Record CreateRequest := {
  req_body : Body;
  req_image : option file_part
}.

(** [req.file] as the Cloudinary storage engine fills it: [filename] is the
    assigned public id and [path] the storage URL. *)
Record File := {
  filename : string;
  path : string
}.

(** What the media service answers to the upload of this request, and the
    identifier and clock reading used if a document is saved. *)
Inductive cloud_reply :=
| Uploaded (assigned_id secure_url : string)
| UploadFailed (reason : string).

Record Env := {
  upload_reply : cloud_reply;
  fresh_id : string;
  now : N
}.

Inductive js_error :=
| MulterError (code message : string)
| ValidationError (errors : list (string * verror))
| Error (message : string).

Definition error_message (e : js_error) : string :=
  match e with
  | MulterError _ m => m
  | ValidationError _ => "Product validation failed"
  | Error m => m
  end.

Inductive Payload :=
| Message (message : string)
| OneProduct (p : Product)
| ProductList (ps : list Product).

Record Response := {
  status : N;
  payload : Payload
}.

(** The server: the database, the file parts whose bytes were handed to
    the storage engine, that is, streamed to the media service, and the
    parts whose uploaded asset Multer asked the storage engine to remove. *)
Record Server := {
  db : Database;
  media : list file_part;
  removed : list file_part
}.

(** ** Upload adapter (lines 49-61) *)

(** [limits.fileSize], in bytes: a part that reaches this size is cut off
    and reported as over the limit. *)
Definition fileSize : N := 5 * 1024 * 1024.

(** [fileFilter]: [None] is [cb(null, true)], [Some e] is [cb(e, false)]. *)
Definition fileFilter (file : file_part) : option js_error :=
  if String.prefix "image/" (mimetype file) then None
  else Some (Error "Only image files are allowed!").

(** [upload.single('image')].  Multer calls the filter when the file part
    starts, before any byte of it is read; a rejected part ends the request
    with the filter's error.  An accepted part is piped to the storage
    engine; a part that reaches [fileSize] bytes ends the request with the
    [LIMIT_FILE_SIZE] error while it streams, and Multer then has the
    storage engine remove what was uploaded of it.  Otherwise the outcome
    is the media service's: [req.file] on success, its error on failure. *)
Definition upload_single (st : Server) (env : Env) (part : option file_part)
  : Server * (js_error + option File) :=
  match part with
  | None => (st, inr None)
  | Some f =>
      match fileFilter f with
      | Some e => (st, inl e)
      | None =>
          let st' := {| db := db st; media := (media st ++ [f])%list;
                        removed := removed st |} in
          if fileSize <=? size f
          then ({| db := db st; media := (media st ++ [f])%list;
                   removed := (removed st ++ [f])%list |},
                inl (MulterError "LIMIT_FILE_SIZE" "File too large"))
          else match upload_reply env with
               | Uploaded id u => (st', inr (Some {| filename := id; path := u |}))
               | UploadFailed m => (st', inl (Error m))
               end
      end
  end.

(** ** Schema validation (lines 64-82) *)

(** The object literal given to [new Product] (lines 108-123). *)
Record ProductInput := {
  in_name : option string;
  in_description : option string;
  in_price : option string;
  in_category : option string;
  in_isFeatured : bool;
  in_image : Image
}.

(** [required: true] on a string path fails on [undefined] and on the empty
    string. *)
Definition required_string (v : option string) : verdict string :=
  match v with
  | None => Invalid Required
  | Some s => if (s =? "")%string then Invalid Required else Valid s
  end.

(** [name]: trimmed by the setter, then required. *)
Definition check_name (v : option string) : verdict string :=
  required_string (option_map js_trim v).

(** [price]: the empty string casts to [null], a string that is not a number
    fails the cast, then [min: 0]. *)
Definition check_price (v : option string) : verdict Num :=
  match v with
  | None => Invalid Required
  | Some s =>
      if (s =? "")%string then Invalid Required
      else match to_number s with
           | None => Invalid CastFailed
           | Some n => if num_ge_zero n then Valid n else Invalid BelowMin
           end
  end.

Definition categories : list string := ["jaggery"; "honey"; "spices"; "other"].

Definition in_enum (s : string) : bool := existsb (String.eqb s) categories.

(** [category]: required, then the enum validator. *)
Definition check_category (v : option string) : verdict string :=
  match required_string v with
  | Valid s => if in_enum s then Valid s else Invalid NotInEnum
  | Invalid e => Invalid e
  end.

Definition report {A : Type} (pth : string) (v : verdict A) : list (string * verror) :=
  match v with
  | Valid _ => []
  | Invalid e => [(pth, e)]
  end.

(** The validated paths of a document. *)
Record Checked := {
  ok_name : string;
  ok_description : string;
  ok_price : Num;
  ok_category : string
}.

Definition validation_errors (d : ProductInput) : list (string * verror) :=
  (report "name" (check_name (in_name d))
   ++ report "description" (required_string (in_description d))
   ++ report "price" (check_price (in_price d))
   ++ report "category" (check_category (in_category d))
   ++ report "image.public_id" (required_string (Some (public_id (in_image d))))
   ++ report "image.url" (required_string (Some (url (in_image d)))))%list.

Definition validate (d : ProductInput) : Checked + list (string * verror) :=
  match check_name (in_name d), required_string (in_description d),
        check_price (in_price d), check_category (in_category d),
        required_string (Some (public_id (in_image d))),
        required_string (Some (url (in_image d))) with
  | Valid n, Valid de, Valid pr, Valid c, Valid _, Valid _ =>
      inl {| ok_name := n; ok_description := de; ok_price := pr; ok_category := c |}
  | _, _, _, _, _, _ => inr (validation_errors d)
  end.

(** The document written for a valid input: the cast paths, the identifier,
    both timestamps and the version key. *)
Definition stored_document (env : Env) (d : ProductInput) (c : Checked) : Product :=
  {| _id := fresh_id env;
     name := ok_name c;
     description := ok_description c;
     price := ok_price c;
     category := ok_category c;
     isFeatured := in_isFeatured d;
     image := in_image d;
     createdAt := now env;
     updatedAt := now env;
     __v := 0 |}.

(** [product.save()]: validation first, then the insert. *)
Definition save (database : Database) (env : Env) (d : ProductInput)
  : Database * (js_error + Product) :=
  match validate d with
  | inr errs => (database, inl (ValidationError errs))
  | inl c =>
      match database with
      | Disconnected _ => (database, inl (Error "Operation buffering timed out"))
      | Connected docs =>
          let created := stored_document env d c in
          (Connected (docs ++ [created])%list, inr created)
      end
  end.

(** ** Routes (lines 99-164) *)

Definition auto_options : url_options :=
  {| fetch_format := "auto"; quality := "auto" |}.

(** [isFeatured === 'true'] *)
Definition is_true_literal (v : option string) : bool :=
  match v with
  | Some s => (s =? "true")%string
  | None => false
  end.

(** The argument of [new Product] at lines 108-123. *)
Definition new_product (b : Body) (file : File) : ProductInput :=
  {| in_name := body_name b;
     in_description := body_description b;
     in_price := body_price b;
     in_category := body_category b;
     in_isFeatured := is_true_literal (body_isFeatured b);
     in_image :=
       {| public_id := filename file;
          url := path file;
          cdn_url := Some (cloudinary_url (filename file)
                             {| fetch_format := "auto"; quality := "auto" |}) |} |}.

Definition respond (code : N) (p : Payload) : Response :=
  {| status := code; payload := p |}.

(** The handler of [POST /api/products], lines 100-131. *)
Definition create_handler (st : Server) (env : Env) (b : Body) (file : option File)
  : Server * Response :=
  match file with
  | None => (st, respond 400 (Message "Product image is required"))
  | Some f =>
      match save (db st) env (new_product b f) with
      | (db', inr createdProduct) =>
          ({| db := db'; media := media st; removed := removed st |},
           respond 201 (OneProduct createdProduct))
      | (db', inl _) =>
          ({| db := db'; media := media st; removed := removed st |},
           respond 500 (Message "Server Error"))
      end
  end.

(** The error middleware, lines 157-164. *)
Definition error_handler (e : js_error) : Response :=
  match e with
  | MulterError code _ =>
      if (code =? "LIMIT_FILE_SIZE")%string
      then respond 400 (Message "File is too large")
      else respond 500 (Message (error_message e))
  | _ => respond 500 (Message (error_message e))
  end.

(** [POST /api/products]: Multer, then the handler or the error
    middleware. *)
Definition post_products (st : Server) (env : Env) (req : CreateRequest)
  : Server * Response :=
  match upload_single st env (req_image req) with
  | (st', inl e) => (st', error_handler e)
  | (st', inr file) => create_handler st' env (req_body req) file
  end.

(** [Product.find().sort({ createdAt: -1 })]. *)
Fixpoint insert_desc (p : Product) (l : list Product) : list Product :=
  match l with
  | [] => [p]
  | q :: l' =>
      if createdAt q <=? createdAt p then p :: q :: l'
      else q :: insert_desc p l'
  end.

Fixpoint sort_desc (l : list Product) : list Product :=
  match l with
  | [] => []
  | p :: l' => insert_desc p (sort_desc l')
  end.

Definition find_sorted (database : Database) : js_error + list Product :=
  match database with
  | Connected docs => inr (sort_desc docs)
  | Disconnected _ => inl (Error "Operation buffering timed out")
  end.

(** One element of [optimizedProducts], lines 138-147: the document's own
    fields, with [image] rebuilt from the stored image and a fresh
    [cdn_url]. *)
Definition optimizedProduct (p : Product) : Product :=
  {| _id := _id p;
     name := name p;
     description := description p;
     price := price p;
     category := category p;
     isFeatured := isFeatured p;
     image :=
       {| public_id := public_id (image p);
          url := url (image p);
          cdn_url := Some (cloudinary_url (public_id (image p))
                             {| fetch_format := "auto"; quality := "auto" |}) |};
     createdAt := createdAt p;
     updatedAt := updatedAt p;
     __v := __v p |}.

(** [GET /api/products], lines 134-154.  The state is not written. *)
Definition get_products (st : Server) : Response :=
  match find_sorted (db st) with
  | inr products => respond 200 (ProductList (map optimizedProduct products))
  | inl _ => respond 500 (Message "Server Error")
  end.

End Backend.

(** ** Vocabulary of the properties *)

Section Vocabulary.

Context {P : Platform}.

(** The delivery URL with automatic format and automatic quality. *)
Definition derived_cdn_url (id : string) : string :=
  cloudinary_url id auto_options.

(** [created st env req st' p]: the create request [req] on server [st]
    answered 201 with the record [p] and left the server in [st']. *)
Definition created (st : Server) (env : Env) (req : CreateRequest)
           (st' : Server) (p : Product) : Prop :=
  post_products st env req = (st', respond 201 (OneProduct p)).

(** Descending creation time. *)
Definition newer_first (a b : Product) : Prop := createdAt b <= createdAt a.

(** The same document with another stored [image.cdn_url]. *)
Definition set_cdn_url (v : option string) (p : Product) : Product :=
  {| _id := _id p;
     name := name p;
     description := description p;
     price := price p;
     category := category p;
     isFeatured := isFeatured p;
     image := {| public_id := public_id (image p); url := url (image p); cdn_url := v |};
     createdAt := createdAt p;
     updatedAt := updatedAt p;
     __v := __v p |}.

(** [r] agrees with [p] on every field but [image.cdn_url]. *)
Definition same_except_cdn_url (p r : Product) : Prop :=
  _id r = _id p /\ name r = name p /\ description r = description p
  /\ price r = price p /\ category r = category p
  /\ isFeatured r = isFeatured p
  /\ public_id (image r) = public_id (image p) /\ url (image r) = url (image p)
  /\ createdAt r = createdAt p /\ updatedAt r = updatedAt p /\ __v r = __v p.

(** The category sent is not one of the four of the schema. *)
Definition category_outside (b : Body) : Prop :=
  exists s, body_category b = Some s /\ ~ In s categories.

(** One of the four required text fields is absent. *)
Definition missing_required (b : Body) : Prop :=
  body_name b = None \/ body_description b = None
  \/ body_price b = None \/ body_category b = None.

(** A 4xx status. *)
Definition is_client_error (code : N) : bool := (400 <=? code) && (code <? 500).

End Vocabulary.

(** ** The application as a whole *)

Section Application.

Context {P : Platform}.

(** The two routes the application registers (lines 100 and 134).  A create
    request comes with what the outside world decides while it is served. *)
Inductive Request :=
| CreateProduct (env : Env) (req : CreateRequest)
| ListProducts.

Definition handle (st : Server) (r : Request) : Server * Response :=
  match r with
  | CreateProduct env req => post_products st env req
  | ListProducts => (st, get_products st)
  end.

(** Requests served one after the other, with their responses in order. *)
Fixpoint run (st : Server) (rs : list Request) : Server * list Response :=
  match rs with
  | [] => (st, [])
  | r :: rs' =>
      let (st1, resp) := handle st r in
      let (st2, resps) := run st1 rs' in
      (st2, resp :: resps)
  end.

(** The records carried by the create responses of a run. *)
Definition created_records (resps : list Response) : list Product :=
  flat_map (fun r => match payload r with
                     | OneProduct p => [p]
                     | _ => []
                     end) resps.

Definition is_connected (d : Database) : bool :=
  match d with
  | Connected _ => true
  | Disconnected _ => false
  end.

(** What the schema (lines 64-82) demands of a document. *)
Definition well_formed (p : Product) : Prop :=
  name p <> "" /\ description p <> ""
  /\ num_ge_zero (price p) = true
  /\ In (category p) categories
  /\ public_id (image p) <> "" /\ url (image p) <> "".

End Application.

(** ** Start-up (lines 14, 86-95 and 166-177) *)

Module Startup.

(** What the process does that can be seen from outside. *)
Inductive event :=
| Log (line : string)
| LogError (label detail : string)
| Listening (port : string + N)
| Uncaught (error : string)
| Exit (code : N).

(** A computation of the process: the events so far, and a result unless
    the process has exited. *)
Definition proc (A : Type) : Type := list event * option A.

Definition ret {A : Type} (a : A) : proc A := ([], Some a).

Definition bind {A B : Type} (m : proc A) (k : A -> proc B) : proc B :=
  match m with
  | (t, None) => (t, None)
  | (t, Some a) => let (t', b) := k a in ((t ++ t')%list, b)
  end.

Definition emit (e : event) : proc unit := ([e], Some tt).

(** [process.exit(code)]: nothing runs after it. *)
Definition exit {A : Type} (code : N) : proc A := ([Exit code], None).

(** An [error] event no handler is registered for: the runtime ends the
    process; no code of the application runs for it. *)
Definition crash {A : Type} (error : string) : proc A := ([Uncaught error], None).

(** [process.env.PORT || 5000]: an absent variable is [undefined] and the
    empty string is falsy; any other text is kept as it is. *)
Definition PORT (env_port : option string) : string + N :=
  match env_port with
  | Some s => if (s =? "")%string then inr 5000 else inl s
  | None => inr 5000
  end.

(** The port inside a template string. *)
Definition port_text (p : string + N) : string :=
  match p with
  | inl s => s
  | inr n => NilEmpty.string_of_uint (N.to_uint n)
  end.

(** The outcome of [mongoose.connect], and of [app.listen]: the call
    returns and the server comes to listen; the call throws; or the call
    returns and the listen fails afterwards (a port in use), which the
    server reports as an [error] event. *)
Inductive connect_outcome :=
| ConnectOk (host : string)
| ConnectFailed (error : string).

Inductive listen_outcome :=
| ListenOk
| ListenThrows (error : string)
| ListenFailsLater (error : string).

(** [connectDB], lines 87-95. *)
Definition connectDB (c : connect_outcome) : proc unit :=
  match c with
  | ConnectOk host => emit (Log ("MongoDB Connected: " ++ host))
  | ConnectFailed error =>
      bind (emit (LogError "Database connection error:" error))
           (fun _ => exit 1)
  end.

(** [startServer], lines 167-175: the listen callback logs the address once
    the server listens; an exception of [app.listen] is caught; the server
    is given no [error] handler, so a listen that fails after the call
    returned reaches neither the callback nor the catch. *)
Definition startServer (env_port : option string) (c : connect_outcome)
           (l : listen_outcome) : proc unit :=
  bind (connectDB c) (fun _ =>
    match l with
    | ListenOk =>
        bind (emit (Listening (PORT env_port))) (fun _ =>
          emit (Log ("http://localhost:" ++ port_text (PORT env_port))))
    | ListenThrows error =>
        bind (emit (LogError "Failed to start server:" error))
             (fun _ => exit 1)
    | ListenFailsLater error => crash error
    end).

End Startup.

(** ** A concrete platform

    Integers for numbers, decimal literals for [Number], ASCII white space
    for [trim], and the delivery URL scheme of the media service for a cloud
    named [demo].  It is used to run the model on concrete requests. *)

Module Demo.

Fixpoint digits (s : string) (acc : Z) : option Z :=
  match s with
  | EmptyString => Some acc
  | String c r =>
      let n := Z.of_N (N_of_ascii c) in
      if ((48 <=? n) && (n <=? 57))%Z then digits r (10 * acc + (n - 48))%Z
      else None
  end.

Definition number_of_string (s : string) : option Z :=
  match s with
  | EmptyString => Some 0%Z
  | String "-" r =>
      match r with
      | EmptyString => None
      | _ => option_map Z.opp (digits r 0%Z)
      end
  | _ => digits s 0%Z
  end.

Definition is_space (c : ascii) : bool :=
  let n := N_of_ascii c in (n =? 32) || ((9 <=? n) && (n <=? 13)).

Fixpoint trim_start (s : string) : string :=
  match s with
  | String c r => if is_space c then trim_start r else s
  | EmptyString => EmptyString
  end.

Fixpoint trim_end (s : string) : string :=
  match s with
  | EmptyString => EmptyString
  | String c r =>
      match trim_end r with
      | EmptyString => if is_space c then EmptyString else String c EmptyString
      | r' => String c r'
      end
  end.

Definition trim (s : string) : string := trim_end (trim_start s).

Definition delivery_url (id : string) (o : url_options) : string :=
  "http://res.cloudinary.com/demo/image/upload/f_" ++ fetch_format o
    ++ ",q_" ++ quality o ++ "/" ++ id.

Definition platform : Platform :=
  {| Num := Z;
     to_number := number_of_string;
     num_ge_zero := fun v => (0 <=? v)%Z;
     js_trim := trim;
     cloudinary_url := delivery_url |}.

Definition body_honey : Body :=
  {| body_name := Some "  Forest honey ";
     body_description := Some "Raw honey, 500 g";
     body_price := Some "450";
     body_category := Some "honey";
     body_isFeatured := Some "true" |}.

Definition body_sugar : Body :=
  {| body_name := Some "Cane sugar";
     body_description := Some "Refined, 1 kg";
     body_price := Some "60";
     body_category := Some "sugar";
     body_isFeatured := None |}.

Definition photo : file_part :=
  {| originalname := "honey.png"; mimetype := "image/png"; size := 204800 |}.


Definition notes : file_part :=
  {| originalname := "notes.txt"; mimetype := "text/plain"; size := 120 |}.


Definition env1 : Env :=
  {| upload_reply :=
       Uploaded "jaggery-products/abc123"
         "https://res.cloudinary.com/demo/image/upload/v1/jaggery-products/abc123.webp";
     fresh_id := "64f0c0ffee0000000000a001";
     now := 1700000000000 |}.

(** [req.file] once [photo] is stored under [env1]. *)
Definition stored_photo : File :=
  {| filename := "jaggery-products/abc123";
     path := "https://res.cloudinary.com/demo/image/upload/v1/jaggery-products/abc123.webp" |}.

Definition empty_server : Server (P := platform) :=
  {| db := Connected []; media := []; removed := [] |}.

Definition request (b : Body) (f : option file_part) : CreateRequest :=
  {| req_body := b; req_image := f |}.

(** The record that [body_honey] with [photo] creates under [env1]. *)
Definition honey : Product (P := platform) :=
  {| _id := "64f0c0ffee0000000000a001";
     name := "Forest honey";
     description := "Raw honey, 500 g";
     price := (450%Z : @Num platform);
     category := "honey";
     isFeatured := true;
     image :=
       {| public_id := "jaggery-products/abc123";
          url := "https://res.cloudinary.com/demo/image/upload/v1/jaggery-products/abc123.webp";
          cdn_url := Some "http://res.cloudinary.com/demo/image/upload/f_auto,q_auto/jaggery-products/abc123" |};
     createdAt := 1700000000000;
     updatedAt := 1700000000000;
     __v := 0 |}.

(** The server once [photo] went to the media service and nothing was
    written. *)
Definition after_upload : Server (P := platform) :=
  {| db := Connected []; media := [photo]; removed := [] |}.

Definition after_honey : Server (P := platform) :=
  {| db := Connected [honey]; media := [photo]; removed := [] |}.

Lemma sugar_outside : category_outside body_sugar.
Proof.
  exists "sugar"; split; [reflexivity|].
  intros [H|[H|[H|[H|[]]]]]; discriminate H.
Qed.

(** ** The model at work *)

Definition body_jaggery : Body :=
  {| body_name := Some "Palm jaggery";
     body_description := Some "Block, 1 kg";
     body_price := Some "120";
     body_category := Some "jaggery";
     body_isFeatured := Some "yes" |}.

Definition env2 : Env :=
  {| upload_reply :=
       Uploaded "jaggery-products/def456"
         "https://res.cloudinary.com/demo/image/upload/v2/jaggery-products/def456.webp";
     fresh_id := "64f0c0ffee0000000000a002";
     now := 1700000005000 |}.

Definition jaggery : Product (P := platform) :=
  {| _id := "64f0c0ffee0000000000a002";
     name := "Palm jaggery";
     description := "Block, 1 kg";
     price := (120%Z : @Num platform);
     category := "jaggery";
     isFeatured := false;
     image :=
       {| public_id := "jaggery-products/def456";
          url := "https://res.cloudinary.com/demo/image/upload/v2/jaggery-products/def456.webp";
          cdn_url := Some "http://res.cloudinary.com/demo/image/upload/f_auto,q_auto/jaggery-products/def456" |};
     createdAt := 1700000005000;
     updatedAt := 1700000005000;
     __v := 0 |}.

Example create_honey :
  post_products empty_server env1 (request body_honey (Some photo))
  = (after_honey, respond 201 (OneProduct honey)).
Proof. reflexivity. Qed.

Example create_jaggery :
  post_products after_honey env2 (request body_jaggery (Some photo))
  = ({| db := Connected [honey; jaggery]; media := [photo; photo]; removed := [] |},
     respond 201 (OneProduct jaggery)).
Proof. reflexivity. Qed.

Example list_two :
  get_products {| db := Connected [honey; jaggery]; media := [photo; photo];
                  removed := [] |}
  = respond 200 (ProductList [jaggery; honey]).
Proof. reflexivity. Qed.

(** A stale [cdn_url] in storage is not what the list returns. *)
Example list_stale :
  get_products {| db := Connected [set_cdn_url (Some "http://old.example/x") honey];
                  media := []; removed := [] |}
  = respond 200 (ProductList [honey]).
Proof. reflexivity. Qed.

Example create_when_disconnected :
  post_products (P := platform)
    {| db := Disconnected []; media := []; removed := [] |} env1
    (request body_honey (Some photo))
  = ({| db := Disconnected []; media := [photo]; removed := [] |},
     respond 500 (Message "Server Error")).
Proof. reflexivity. Qed.

Example create_when_upload_fails :
  post_products empty_server
    {| upload_reply := UploadFailed "Invalid image file";
       fresh_id := "64f0c0ffee0000000000a003"; now := 1700000009000 |}
    (request body_honey (Some photo))
  = (after_upload, respond 500 (Message "Invalid image file")).
Proof. reflexivity. Qed.

(** An image of exactly [fileSize] bytes reaches the limit. *)
Definition limit_photo : file_part :=
  {| originalname := "limit.png"; mimetype := "image/png"; size := 5242880 |}.

Example create_at_the_limit :
  post_products empty_server env1 (request body_honey (Some limit_photo))
  = ({| db := Connected []; media := [limit_photo]; removed := [limit_photo] |},
     respond 400 (Message "File is too large")).
Proof. reflexivity. Qed.

(** ** More requests *)

Definition env_failing : Env :=
  {| upload_reply := UploadFailed "Invalid image file";
     fresh_id := "64f0c0ffee0000000000a003";
     now := 1700000009000 |}.

Definition body_negative : Body :=
  {| body_name := Some "Wild honey";
     body_description := Some "Jar, 250 g";
     body_price := Some "-5";
     body_category := Some "honey";
     body_isFeatured := Some "false" |}.

End Demo.

(** * Properties *)

Section Facts.

Context {P : Platform}.

(** ** The upload stage *)

Lemma fileFilter_accepts (f : file_part) :
  String.prefix "image/" (mimetype f) = true -> fileFilter f = None.
Proof. unfold fileFilter; intros ->; reflexivity. Qed.

Lemma fileFilter_rejects (f : file_part) :
  String.prefix "image/" (mimetype f) = false ->
  fileFilter f = Some (Error "Only image files are allowed!").
Proof. unfold fileFilter; intros ->; reflexivity. Qed.

(** Multer never touches the database. *)
Lemma upload_single_db (st : Server) (env : Env) (part : option file_part) :
  db (fst (upload_single st env part)) = db st.
Proof.
  unfold upload_single.
  destruct part as [f|]; [|reflexivity].
  destruct (fileFilter f); [reflexivity|].
  destruct (fileSize <=? size f); [reflexivity|].
  destruct (upload_reply env); reflexivity.
Qed.

(** [req.file] is set only for an accepted part below the limit that the
    media service stored. *)
Lemma upload_single_file (st st' : Server) (env : Env)
      (part : option file_part) (file : File) :
  upload_single st env part = (st', inr (Some file)) ->
  exists f,
    part = Some f /\ fileFilter f = None /\ size f < fileSize
    /\ upload_reply env = Uploaded (filename file) (path file)
    /\ st' = {| db := db st; media := (media st ++ [f])%list;
                removed := removed st |}.
Proof.
  unfold upload_single.
  destruct part as [f|]; [|discriminate].
  destruct (fileFilter f) eqn:Hf; [discriminate|].
  destruct (fileSize <=? size f) eqn:Hs; [discriminate|].
  destruct (upload_reply env) as [id u|m] eqn:Hr; [|discriminate].
  intros H; injection H as Hst Hfile; subst st' file; simpl.
  exists f.
  split; [reflexivity|].
  split; [exact Hf|].
  split; [apply N.leb_gt; exact Hs|].
  split; reflexivity.
Qed.

Lemma upload_single_accepted (st : Server) (env : Env) (f : file_part) (id u : string) :
  fileFilter f = None -> size f < fileSize -> upload_reply env = Uploaded id u ->
  upload_single st env (Some f)
  = ({| db := db st; media := (media st ++ [f])%list; removed := removed st |},
     inr (Some {| filename := id; path := u |})).
Proof.
  intros Hf Hs Hr; unfold upload_single.
  rewrite Hf, Hr.
  apply N.leb_gt in Hs; rewrite Hs; reflexivity.
Qed.

(** ** The four ways a create request is turned down *)

Lemma post_without_file (st : Server) (env : Env) (req : CreateRequest) :
  req_image req = None ->
  post_products st env req
  = (st, respond 400 (Message "Product image is required")).
Proof. intros H; unfold post_products; rewrite H; reflexivity. Qed.

Lemma post_not_an_image (st : Server) (env : Env) (req : CreateRequest) (f : file_part) :
  req_image req = Some f ->
  String.prefix "image/" (mimetype f) = false ->
  post_products st env req
  = (st, respond 500 (Message "Only image files are allowed!")).
Proof.
  intros H Hm; unfold post_products, upload_single.
  rewrite H, (fileFilter_rejects f Hm); reflexivity.
Qed.


Lemma save_invalid (database : Database) (env : Env) (d : ProductInput)
      (errs : list (string * verror)) :
  validate d = inr errs ->
  save database env d = (database, inl (ValidationError errs)).
Proof. intros H; unfold save; rewrite H; reflexivity. Qed.

Lemma post_invalid_document (st st' : Server) (env : Env) (req : CreateRequest)
      (file : File) (errs : list (string * verror)) :
  upload_single st env (req_image req) = (st', inr (Some file)) ->
  validate (new_product (req_body req) file) = inr errs ->
  post_products st env req = (st', respond 500 (Message "Server Error")).
Proof.
  intros Hu Hv; unfold post_products, create_handler.
  rewrite Hu, (save_invalid _ _ _ _ Hv).
  destruct st'; reflexivity.
Qed.

(** ** Validation *)

Lemma in_enum_spec (s : string) : in_enum s = true <-> In s categories.
Proof.
  unfold in_enum; rewrite existsb_exists; split.
  - intros [x [Hin Heq]]; apply String.eqb_eq in Heq; subst; exact Hin.
  - intros Hin; exists s; split; [exact Hin | apply String.eqb_refl].
Qed.

(** A reported error makes [validate] fail with the whole report. *)
Lemma validate_reports (d : ProductInput) (pth : string) (e : verror) :
  In (pth, e) (validation_errors d) -> validate d = inr (validation_errors d).
Proof.
  unfold validate, validation_errors.
  destruct (check_name (in_name d)), (required_string (in_description d)),
    (check_price (in_price d)), (check_category (in_category d)),
    (required_string (Some (public_id (in_image d)))),
    (required_string (Some (url (in_image d)))); simpl; intros H;
    try reflexivity; contradiction.
Qed.

(** What passes the schema: a name that is not blank, a description, a
    price that is a number not below zero, one of the four categories, and
    the two image references. *)
Lemma validate_valid (d : ProductInput) (n de s c : string) (pr : Num) :
  option_map js_trim (in_name d) = Some n -> n <> "" ->
  in_description d = Some de -> de <> "" ->
  in_price d = Some s -> s <> "" ->
  to_number s = Some pr -> num_ge_zero pr = true ->
  in_category d = Some c -> In c categories ->
  public_id (in_image d) <> "" -> url (in_image d) <> "" ->
  validate d
  = inl {| ok_name := n; ok_description := de; ok_price := pr; ok_category := c |}.
Proof.
  intros Hn Hn' Hd Hd' Hp Hp' Hnum Hge Hc Hc' Hid Hurl.
  assert (Hreq : forall x : string, x <> "" -> required_string (Some x) = Valid x).
  { intros x Hx; simpl.
    destruct (x =? "")%string eqn:E; [apply String.eqb_eq in E; contradiction|].
    reflexivity. }
  assert (He : c <> "").
  { intros ->; destruct Hc' as [H|[H|[H|[H|[]]]]]; discriminate H. }
  apply in_enum_spec in Hc'.
  unfold validate, check_name, check_price, check_category.
  rewrite Hn, Hd, Hp, Hc, Hnum, Hge.
  rewrite (Hreq n Hn'), (Hreq de Hd'), (Hreq c He), Hc'.
  rewrite (Hreq _ Hid), (Hreq _ Hurl).
  apply String.eqb_neq in Hp'; rewrite Hp'.
  reflexivity.
Qed.

Lemma name_missing (d : ProductInput) :
  in_name d = None -> In ("name", Required) (validation_errors d).
Proof.
  intros H; unfold validation_errors, check_name; rewrite H; simpl.
  left; reflexivity.
Qed.

Lemma description_missing (d : ProductInput) :
  in_description d = None -> In ("description", Required) (validation_errors d).
Proof.
  intros H; unfold validation_errors; rewrite H.
  apply in_or_app; right; left; reflexivity.
Qed.

Lemma price_missing (d : ProductInput) :
  in_price d = None -> In ("price", Required) (validation_errors d).
Proof.
  intros H; unfold validation_errors; rewrite H.
  do 2 (apply in_or_app; right); left; reflexivity.
Qed.

Lemma category_missing (d : ProductInput) :
  in_category d = None -> In ("category", Required) (validation_errors d).
Proof.
  intros H; unfold validation_errors; rewrite H.
  do 3 (apply in_or_app; right); left; reflexivity.
Qed.

Lemma category_outside_enum (d : ProductInput) (s : string) :
  in_category d = Some s -> ~ In s categories ->
  exists e, In ("category", e) (validation_errors d).
Proof.
  intros H Hout; unfold validation_errors, check_category; rewrite H; simpl.
  destruct (s =? "")%string.
  - exists Required; do 3 (apply in_or_app; right); left; reflexivity.
  - destruct (in_enum s) eqn:He.
    + apply in_enum_spec in He; contradiction.
    + exists NotInEnum; do 3 (apply in_or_app; right); left; reflexivity.
Qed.

(** ** Creation *)

Lemma post_valid_document (st st' : Server) (env : Env) (req : CreateRequest)
      (file : File) (c : Checked) (docs : list Product) :
  upload_single st env (req_image req) = (st', inr (Some file)) ->
  validate (new_product (req_body req) file) = inl c ->
  db st = Connected docs ->
  let created := stored_document env (new_product (req_body req) file) c in
  post_products st env req
  = ({| db := Connected (docs ++ [created]); media := media st';
        removed := removed st' |},
     respond 201 (OneProduct created)).
Proof.
  intros Hu Hv Hd created; unfold post_products, create_handler, save.
  rewrite Hu, Hv.
  pose proof (upload_single_db st env (req_image req)) as Hdb.
  rewrite Hu in Hdb; simpl in Hdb; rewrite Hdb, Hd.
  reflexivity.
Qed.

Lemma error_handler_message (e : js_error) :
  exists code m, error_handler e = respond code (Message m).
Proof.
  destruct e as [code m|errs|m]; simpl.
  - destruct (code =? "LIMIT_FILE_SIZE")%string; eexists; eexists; reflexivity.
  - eexists; eexists; reflexivity.
  - eexists; eexists; reflexivity.
Qed.

(** A response that carries a product comes from the success branch. *)
Lemma post_created (st st' : Server) (env : Env) (req : CreateRequest)
      (r : Response) (p : Product) :
  post_products st env req = (st', r) ->
  payload r = OneProduct p ->
  exists mid file c docs,
    upload_single st env (req_image req) = (mid, inr (Some file))
    /\ validate (new_product (req_body req) file) = inl c
    /\ db st = Connected docs
    /\ p = stored_document env (new_product (req_body req) file) c
    /\ st' = {| db := Connected (docs ++ [p]); media := media mid;
                removed := removed mid |}
    /\ r = respond 201 (OneProduct p).
Proof.
  unfold post_products.
  destruct (upload_single st env (req_image req)) as [mid [e|file]] eqn:Hu.
  - destruct (error_handler_message e) as [code [m Hm]]; rewrite Hm.
    intros H; injection H as _ <-; discriminate.
  - pose proof (upload_single_db st env (req_image req)) as Hdb.
    rewrite Hu in Hdb; simpl in Hdb.
    unfold create_handler.
    destruct file as [file|]; [|intros H; injection H as _ <-; discriminate].
    unfold save.
    destruct (validate (new_product (req_body req) file)) as [c|errs] eqn:Hv;
      [|intros H; injection H as _ <-; discriminate].
    destruct (db mid) as [docs|docs] eqn:Hd;
      [|intros H; injection H as _ <-; discriminate].
    intros H; injection H as <- <-; simpl; intros Hp; injection Hp as <-.
    exists mid, file, c, docs.
    split; [reflexivity|].
    split; [exact Hv|].
    split; [symmetry; exact Hdb|].
    repeat split; reflexivity.
Qed.

(** ** Sorting by creation time *)

Lemma insert_desc_perm (p : Product) (l : list Product) :
  Permutation (insert_desc p l) (p :: l).
Proof.
  induction l as [|q l IH]; simpl.
  - apply Permutation_refl.
  - destruct (createdAt q <=? createdAt p).
    + apply Permutation_refl.
    + apply Permutation_trans with (q :: p :: l).
      * apply perm_skip; exact IH.
      * apply perm_swap.
Qed.

Lemma sort_desc_perm (l : list Product) : Permutation (sort_desc l) l.
Proof.
  induction l as [|p l IH]; simpl.
  - apply perm_nil.
  - apply Permutation_trans with (p :: sort_desc l).
    + apply insert_desc_perm.
    + apply perm_skip; exact IH.
Qed.

Lemma insert_desc_forall (Q : Product -> Prop) (p : Product) (l : list Product) :
  Q p -> Forall Q l -> Forall Q (insert_desc p l).
Proof.
  intros Hp Hl.
  apply (Permutation_Forall (Permutation_sym (insert_desc_perm p l))).
  constructor; assumption.
Qed.

Lemma insert_desc_sorted (p : Product) (l : list Product) :
  StronglySorted newer_first l -> StronglySorted newer_first (insert_desc p l).
Proof.
  induction l as [|q l IH]; simpl; intros Hs.
  - constructor; constructor.
  - inversion Hs as [|? ? Hl Hq]; subst.
    destruct (createdAt q <=? createdAt p) eqn:Hle.
    + apply N.leb_le in Hle.
      constructor; [exact Hs|].
      constructor; [exact Hle|].
      eapply Forall_impl; [|exact Hq].
      intros x Hx; unfold newer_first in *; lia.
    + apply N.leb_gt in Hle.
      constructor; [apply IH; exact Hl|].
      apply insert_desc_forall; [|exact Hq].
      unfold newer_first; lia.
Qed.

Lemma sort_desc_sorted (l : list Product) : StronglySorted newer_first (sort_desc l).
Proof.
  induction l as [|p l IH]; simpl.
  - constructor.
  - apply insert_desc_sorted; exact IH.
Qed.

(** Sorting commutes with any rewrite of the documents that keeps their
    creation time. *)
Lemma insert_desc_map (g : Product -> Product) (p : Product) (l : list Product) :
  (forall x, createdAt (g x) = createdAt x) ->
  insert_desc (g p) (map g l) = map g (insert_desc p l).
Proof.
  intros Hg; induction l as [|q l IH]; simpl; [reflexivity|].
  rewrite !Hg.
  destruct (createdAt q <=? createdAt p); simpl; [reflexivity|].
  rewrite IH; reflexivity.
Qed.

Lemma sort_desc_map (g : Product -> Product) (l : list Product) :
  (forall x, createdAt (g x) = createdAt x) ->
  sort_desc (map g l) = map g (sort_desc l).
Proof.
  intros Hg; induction l as [|p l IH]; simpl; [reflexivity|].
  rewrite IH; apply insert_desc_map; exact Hg.
Qed.

Lemma map_sorted (g : Product -> Product) (l : list Product) :
  (forall x, createdAt (g x) = createdAt x) ->
  StronglySorted newer_first l -> StronglySorted newer_first (map g l).
Proof.
  intros Hg Hs; rewrite <- (map_id l) in Hs.
  induction l as [|p l IH]; simpl in *; [constructor|].
  inversion Hs as [|? ? Hl Hp]; subst.
  constructor; [apply IH; exact Hl|].
  rewrite map_id in Hp; apply Forall_map.
  eapply Forall_impl; [|exact Hp].
  intros x Hx; unfold newer_first in *; rewrite !Hg; exact Hx.
Qed.

(** The same for a rewrite that may look at the document it replaces. *)
Lemma sort_desc_map_dep (stored : Product -> option string) (l : list Product) :
  sort_desc (map (fun p => set_cdn_url (stored p) p) l)
  = map (fun p => set_cdn_url (stored p) p) (sort_desc l).
Proof. apply sort_desc_map; intros x; reflexivity. Qed.


(** A category outside the enum or an absent required field is reported. *)
Lemma invalid_fields_reported (b : Body) (file : File) :
  category_outside b \/ missing_required b ->
  exists pth e, In (pth, e) (validation_errors (new_product b file)).
Proof.
  intros [[s [Hc Hout]]|[H|[H|[H|H]]]].
  - destruct (category_outside_enum (new_product b file) s Hc Hout) as [e He].
    exists "category", e; exact He.
  - exists "name", Required; apply name_missing; exact H.
  - exists "description", Required; apply description_missing; exact H.
  - exists "price", Required; apply price_missing; exact H.
  - exists "category", Required; apply category_missing; exact H.
Qed.

(** The database is written only by the success branch. *)
Lemma post_db (st st' : Server) (env : Env) (req : CreateRequest) (r : Response) :
  post_products st env req = (st', r) ->
  db st' = db st \/ exists p, payload r = OneProduct p.
Proof.
  unfold post_products.
  pose proof (upload_single_db st env (req_image req)) as Hdb.
  destruct (upload_single st env (req_image req)) as [mid [e|file]];
    simpl in Hdb.
  - intros H; injection H as <- _; left; exact Hdb.
  - unfold create_handler.
    destruct file as [file|]; [|intros H; injection H as <- _; left; exact Hdb].
    unfold save.
    destruct (validate (new_product (req_body req) file)) as [c|errs];
      [|intros H; injection H as <- _; left; exact Hdb].
    destruct (db mid) as [docs|docs] eqn:Hd.
    + intros H; injection H as _ <-; right; eexists; reflexivity.
    + intros H; injection H as <- _; left; simpl; exact Hdb.
Qed.

End Facts.

(** * The claims *)

(** C1, as amended.  On a connected database, a create request whose image
    upload succeeded (Multer set [req.file]) and whose fields pass the
    schema is answered 201 with the record just appended to the collection;
    the record's [image.public_id] is the identifier the media service
    assigned and its [image.cdn_url] is [derived_cdn_url] of that
    identifier, so two creates that yield the same public id yield the same
    URL. *)
Theorem create_valid_request {P : Platform} :
  (forall (docs : list Product) (received gone : list file_part) (env : Env)
          (req : CreateRequest) (mid : Server) (file : File) (c : Checked),
      upload_single {| db := Connected docs; media := received; removed := gone |}
        env (req_image req)
      = (mid, inr (Some file)) ->
      validate (new_product (req_body req) file) = inl c ->
      exists p : Product,
        post_products {| db := Connected docs; media := received; removed := gone |}
          env req
        = ({| db := Connected (docs ++ [p]); media := media mid;
              removed := removed mid |},
           respond 201 (OneProduct p))
        /\ public_id (image p) = filename file
        /\ cdn_url (image p) = Some (derived_cdn_url (public_id (image p))))
  /\ (forall (st1 st1' st2 st2' : Server) (env1 env2 : Env)
             (req1 req2 : CreateRequest) (p1 p2 : Product),
         created st1 env1 req1 st1' p1 ->
         created st2 env2 req2 st2' p2 ->
         public_id (image p1) = public_id (image p2) ->
         cdn_url (image p1) = cdn_url (image p2)).
Proof.
  split.
  - intros docs received gone env req mid file c Hu Hv.
    eexists; split; [|split].
    + exact (post_valid_document _ mid env req file c docs Hu Hv eq_refl).
    + reflexivity.
    + reflexivity.
  - intros st1 st1' st2 st2' env1 env2 req1 req2 p1 p2 H1 H2 Hid.
    destruct (post_created _ _ _ _ _ _ H1 eq_refl)
      as (m1 & f1 & c1 & d1 & _ & _ & _ & Hp1 & _).
    destruct (post_created _ _ _ _ _ _ H2 eq_refl)
      as (m2 & f2 & c2 & d2 & _ & _ & _ & Hp2 & _).
    rewrite Hp1, Hp2 in Hid |- *; simpl in *.
    rewrite Hid; reflexivity.
Qed.

Lemma create_valid_request_witness :
  exists p : @Product Demo.platform,
    post_products Demo.empty_server Demo.env1
      (Demo.request Demo.body_honey (Some Demo.photo))
    = ({| db := Connected ([] ++ [p]); media := media Demo.after_upload;
          removed := removed Demo.after_upload |},
       respond 201 (OneProduct p))
    /\ public_id (image p) = filename Demo.stored_photo
    /\ cdn_url (image p)
       = Some (derived_cdn_url (P := Demo.platform) (public_id (image p))).
Proof.
  eapply (proj1 (@create_valid_request Demo.platform) [] [] [] Demo.env1
            (Demo.request Demo.body_honey (Some Demo.photo))
            Demo.after_upload Demo.stored_photo).
  - reflexivity.
  - reflexivity.
Defined.

(** C1 as stated fails: with the database connection down, a request whose
    image upload succeeded and whose fields pass the schema is answered 500
    "Server Error" by the handler's catch, and nothing is stored. *)
Lemma valid_create_while_disconnected :
  upload_single (P := Demo.platform)
    {| db := Disconnected []; media := []; removed := [] |} Demo.env1
    (req_image (Demo.request Demo.body_honey (Some Demo.photo)))
  = ({| db := Disconnected []; media := [Demo.photo]; removed := [] |},
     inr (Some Demo.stored_photo))
  /\ (exists c, validate (P := Demo.platform)
                  (new_product (P := Demo.platform)
                     (req_body (Demo.request Demo.body_honey (Some Demo.photo)))
                     Demo.stored_photo) = inl c)
  /\ post_products (P := Demo.platform)
       {| db := Disconnected []; media := []; removed := [] |} Demo.env1
       (Demo.request Demo.body_honey (Some Demo.photo))
     = ({| db := Disconnected []; media := [Demo.photo]; removed := [] |},
        respond 500 (Message "Server Error"))
  /\ status (respond (P := Demo.platform) 500 (Message "Server Error")) <> 201.
Proof.
  split; [reflexivity|].
  split; [eexists; reflexivity|].
  split; [reflexivity|].
  intros H; discriminate H.
Qed.

(** C2, as amended.  On a connected database, over any stored collection,
    the list route answers 200 with the stored documents put in descending
    order of their creation time, each with its [image.cdn_url] replaced by
    the URL derived from its [image.public_id] with automatic format and
    automatic quality and every other field as stored; the response does
    not depend on the [cdn_url] values in storage. *)
Theorem list_newest_first_recomputed {P : Platform} :
  forall (docs : list Product) (received gone : list file_part),
    (exists sorted out : list Product,
        Permutation sorted docs
        /\ StronglySorted newer_first sorted
        /\ out = map (fun p => set_cdn_url
                                 (Some (cloudinary_url (public_id (image p))
                                          auto_options)) p) sorted
        /\ get_products {| db := Connected docs; media := received; removed := gone |}
           = respond 200 (ProductList out)
        /\ StronglySorted newer_first out
        /\ Forall (fun r => cdn_url (image r)
                            = Some (cloudinary_url (public_id (image r)) auto_options))
                  out)
    /\ (forall stored : Product -> option string,
           get_products
             {| db := Connected (map (fun p => set_cdn_url (stored p) p) docs);
                media := received; removed := gone |}
           = get_products {| db := Connected docs; media := received; removed := gone |}).
Proof.
  intros docs received gone; split.
  - exists (sort_desc docs), (map optimizedProduct (sort_desc docs)).
    split; [apply sort_desc_perm|].
    split; [apply sort_desc_sorted|].
    split; [reflexivity|].
    split; [reflexivity|].
    split.
    + apply map_sorted; [intros x; reflexivity | apply sort_desc_sorted].
    + apply Forall_map, Forall_forall; intros x _; reflexivity.
  - intros stored; unfold get_products; simpl.
    rewrite (sort_desc_map_dep stored).
    rewrite map_map; reflexivity.
Qed.

(** C2 as stated fails: with the database connection down the list route
    answers 500 "Server Error", whatever the collection holds. *)
Lemma list_while_disconnected :
  get_products {| db := Disconnected [Demo.honey]; media := []; removed := [] |}
  = respond 500 (Message "Server Error")
  /\ status (respond (P := Demo.platform) 500 (Message "Server Error")) <> 200.
Proof.
  split; [reflexivity|].
  intros H; discriminate H.
Qed.

(** C3. A create request without a file part is answered 400 with the
    message "Product image is required", and the server state (database and
    media service) is left as it was. *)
Theorem create_without_file {P : Platform} :
  forall (st : Server) (env : Env) (req : CreateRequest),
    req_image req = None ->
    post_products st env req
    = (st, respond 400 (Message "Product image is required")).
Proof. intros st env req H; apply post_without_file; exact H. Qed.

Lemma create_without_file_witness :
  post_products Demo.empty_server Demo.env1 (Demo.request Demo.body_honey None)
  = (Demo.empty_server, respond 400 (Message "Product image is required")).
Proof.
  apply (@create_without_file Demo.platform Demo.empty_server Demo.env1
           (Demo.request Demo.body_honey None)).
  reflexivity.
Defined.




(** C5, as amended.  A create request whose file has a MIME type that does
    not start with [image/] is answered 500 with the filter's message
    "Only image files are allowed!"; nothing is handed to the media service
    and nothing is written to the database: the server state is the one
    before the request. *)
Theorem create_non_image_file {P : Platform} :
  forall (st : Server) (env : Env) (req : CreateRequest) (f : file_part),
    req_image req = Some f ->
    String.prefix "image/" (mimetype f) = false ->
    post_products st env req
    = (st, respond 500 (Message "Only image files are allowed!")).
Proof. intros st env req f Hf Hm; exact (post_not_an_image st env req f Hf Hm). Qed.

Lemma create_non_image_file_witness :
  post_products Demo.after_honey Demo.env1
    (Demo.request Demo.body_honey (Some Demo.notes))
  = (Demo.after_honey, respond 500 (Message "Only image files are allowed!")).
Proof.
  apply (@create_non_image_file Demo.platform Demo.after_honey Demo.env1
           (Demo.request Demo.body_honey (Some Demo.notes)) Demo.notes).
  - reflexivity.
  - reflexivity.
Defined.

(** C5 as stated fails: the rejection of a [text/plain] file is not a client
    error, its status is 500. *)
Lemma text_file_not_client_error :
  String.prefix "image/" (mimetype Demo.notes) = false
  /\ status (snd (post_products Demo.empty_server Demo.env1
                    (Demo.request Demo.body_honey (Some Demo.notes)))) = 500
  /\ is_client_error
       (status (snd (post_products Demo.empty_server Demo.env1
                       (Demo.request Demo.body_honey (Some Demo.notes))))) = false.
Proof. repeat split. Qed.

(** C6, as amended.  On a create request whose image upload succeeded, a
    category outside the four of the schema, or an absent required field,
    makes the write fail with a validation error that names at least one
    path, and the answer is 500 with the message "Server Error".  Whatever
    becomes of the upload, a request with such fields leaves the database as
    it was. *)
Theorem create_invalid_fields {P : Platform} :
  (forall (st mid : Server) (env : Env) (req : CreateRequest) (file : File),
      upload_single st env (req_image req) = (mid, inr (Some file)) ->
      category_outside (req_body req) \/ missing_required (req_body req) ->
      exists errs : list (string * verror),
        save (db st) env (new_product (req_body req) file)
        = (db st, inl (ValidationError errs))
        /\ errs <> []
        /\ post_products st env req = (mid, respond 500 (Message "Server Error"))
        /\ db mid = db st)
  /\ (forall (st : Server) (env : Env) (req : CreateRequest),
         category_outside (req_body req) \/ missing_required (req_body req) ->
         db (fst (post_products st env req)) = db st).
Proof.
  split.
  - intros st mid env req file Hu Hbad.
    destruct (invalid_fields_reported (req_body req) file Hbad) as (pth & e & Hin).
    pose proof (validate_reports _ _ _ Hin) as Hv.
    exists (validation_errors (new_product (req_body req) file)).
    split; [apply save_invalid; exact Hv|].
    split; [intros Hnil; rewrite Hnil in Hin; exact Hin|].
    split; [exact (post_invalid_document st mid env req file _ Hu Hv)|].
    pose proof (upload_single_db st env (req_image req)) as Hdb.
    rewrite Hu in Hdb; exact Hdb.
  - intros st env req Hbad.
    destruct (post_products st env req) as [st' r] eqn:Hpost; simpl.
    destruct (post_db st st' env req r Hpost) as [Hsame|[p Hp]]; [exact Hsame|].
    destruct (post_created _ _ _ _ _ _ Hpost Hp)
      as (mid & file & c & docs & _ & Hv & _).
    destruct (invalid_fields_reported (req_body req) file Hbad) as (pth & e & Hin).
    rewrite (validate_reports _ _ _ Hin) in Hv; discriminate Hv.
Qed.

Lemma create_invalid_fields_witness :
  exists errs : list (string * verror),
    save (db Demo.empty_server) Demo.env1
      (new_product (P := Demo.platform)
         (req_body (Demo.request Demo.body_sugar (Some Demo.photo)))
         Demo.stored_photo)
    = (db Demo.empty_server, inl (ValidationError errs))
    /\ errs <> []
    /\ post_products Demo.empty_server Demo.env1
         (Demo.request Demo.body_sugar (Some Demo.photo))
       = (Demo.after_upload, respond 500 (Message "Server Error"))
    /\ db Demo.after_upload = db Demo.empty_server.
Proof.
  apply (proj1 (@create_invalid_fields Demo.platform) Demo.empty_server
           Demo.after_upload Demo.env1
           (Demo.request Demo.body_sugar (Some Demo.photo)) Demo.stored_photo).
  - reflexivity.
  - left; exact Demo.sugar_outside.
Defined.

(** C6 as stated fails: with the category "sugar" and no file part, the
    handler answers 400 "Product image is required" before any document is
    built or validated. *)
Lemma invalid_category_without_file_answer :
  category_outside Demo.body_sugar
  /\ post_products Demo.empty_server Demo.env1 (Demo.request Demo.body_sugar None)
     = (Demo.empty_server, respond 400 (Message "Product image is required"))
  /\ respond (P := Demo.platform) 400 (Message "Product image is required")
     <> respond 500 (Message "Server Error").
Proof.
  split; [exact Demo.sugar_outside|].
  split; [reflexivity|].
  intros H; discriminate H.
Qed.




(** C8. The document built by the create handler has [isFeatured] true
    exactly when the text field is the literal "true"; so has every record a
    create request stores: any other text, and an absent field, give
    false. *)
Theorem isFeatured_only_true_literal {P : Platform} :
  (forall (b : Body) (file : File),
      in_isFeatured (new_product b file) = true <-> body_isFeatured b = Some "true")
  /\ (forall (st st' : Server) (env : Env) (req : CreateRequest) (p : Product),
         created st env req st' p ->
         In p (collection (db st'))
         /\ (isFeatured p = true <-> body_isFeatured (req_body req) = Some "true")
         /\ (body_isFeatured (req_body req) <> Some "true" -> isFeatured p = false)).
Proof.
  assert (Hlit : forall v : option string,
             is_true_literal v = true <-> v = Some "true").
  { intros [s|]; simpl.
    - rewrite String.eqb_eq; split; [intros ->; reflexivity|].
      intros H; injection H as ->; reflexivity.
    - split; intros H; discriminate H. }
  split.
  - intros b file; simpl; apply Hlit.
  - intros st st' env req p Hc.
    destruct (post_created _ _ _ _ _ _ Hc eq_refl)
      as (mid & file & c & docs & _ & _ & _ & Hp & Hst & _).
    split; [|split].
    + rewrite Hst; simpl; apply in_or_app; right; left; reflexivity.
    + rewrite Hp; simpl; apply Hlit.
    + intros Hne; rewrite Hp; simpl.
      destruct (is_true_literal (body_isFeatured (req_body req))) eqn:E;
        [|reflexivity].
      apply Hlit in E; contradiction.
Qed.

Lemma isFeatured_only_true_literal_witness :
  In Demo.honey (collection (db Demo.after_honey))
  /\ (isFeatured Demo.honey = true
      <-> body_isFeatured (req_body (Demo.request Demo.body_honey (Some Demo.photo)))
          = Some "true")
  /\ (body_isFeatured (req_body (Demo.request Demo.body_honey (Some Demo.photo)))
      <> Some "true" -> isFeatured Demo.honey = false).
Proof.
  apply (proj2 (@isFeatured_only_true_literal Demo.platform)
           Demo.empty_server Demo.after_honey Demo.env1
           (Demo.request Demo.body_honey (Some Demo.photo)) Demo.honey).
  reflexivity.
Defined.

(** C9. For a record stored by a create request, the stored [image.cdn_url]
    is the value the list route computes for that public id: both call sites
    apply [cloudinary.url] to the public id with the options
    [fetch_format: 'auto', quality: 'auto'].  Listing rewrites the record to
    itself, and the list taken after the create returns it. *)
Theorem stored_cdn_url_is_listed_cdn_url {P : Platform} :
  forall (st st' : Server) (env : Env) (req : CreateRequest) (p : Product),
    created st env req st' p ->
    (forall q : Product,
        public_id (image q) = public_id (image p) ->
        cdn_url (image (optimizedProduct q)) = cdn_url (image p))
    /\ optimizedProduct p = p
    /\ (exists out : list Product,
           get_products st' = respond 200 (ProductList out) /\ In p out).
Proof.
  intros st st' env req p Hc.
  destruct (post_created _ _ _ _ _ _ Hc eq_refl)
    as (mid & file & c & docs & _ & _ & _ & Hp & Hst & _).
  assert (Hfix : optimizedProduct p = p) by (rewrite Hp; reflexivity).
  split; [|split].
  - intros q Hq; simpl; rewrite Hq, Hp; reflexivity.
  - exact Hfix.
  - exists (map optimizedProduct (sort_desc (docs ++ [p]))).
    split; [rewrite Hst; reflexivity|].
    rewrite <- Hfix at 1; apply in_map.
    apply (Permutation_in _ (Permutation_sym (sort_desc_perm _))).
    apply in_or_app; right; left; reflexivity.
Qed.

Lemma stored_cdn_url_is_listed_cdn_url_witness :
  (forall q : Product (P := Demo.platform),
      public_id (image q) = public_id (image Demo.honey) ->
      cdn_url (image (optimizedProduct q)) = cdn_url (image Demo.honey))
  /\ optimizedProduct Demo.honey = Demo.honey
  /\ (exists out : list (Product (P := Demo.platform)),
         get_products Demo.after_honey = respond 200 (ProductList out)
         /\ In Demo.honey out).
Proof.
  apply (@stored_cdn_url_is_listed_cdn_url Demo.platform
           Demo.empty_server Demo.after_honey Demo.env1
           (Demo.request Demo.body_honey (Some Demo.photo)) Demo.honey).
  reflexivity.
Defined.

(** C10. The list route returns, position by position over the sorted
    collection, records that agree with the stored documents on every field
    but [image.cdn_url]: identifier, name, description, price, category,
    featured flag, [image.public_id], [image.url], both timestamps and the
    version key; and [image.cdn_url] is the derived URL. *)
Theorem list_keeps_other_fields {P : Platform} :
  forall (docs : list Product) (received gone : list file_part),
  exists out : list Product,
    get_products {| db := Connected docs; media := received; removed := gone |}
    = respond 200 (ProductList out)
    /\ Forall2 same_except_cdn_url (sort_desc docs) out
    /\ (forall r, In r out ->
         exists p, In p docs /\ same_except_cdn_url p r
                   /\ r = set_cdn_url (Some (derived_cdn_url (public_id (image p)))) p)
    /\ (forall p, In p docs -> exists r, In r out /\ same_except_cdn_url p r).
Proof.
  intros docs received gone.
  assert (Hsame : forall p, same_except_cdn_url p (optimizedProduct p)).
  { intros p; unfold same_except_cdn_url; simpl; repeat split. }
  exists (map optimizedProduct (sort_desc docs)).
  split; [reflexivity|].
  split; [|split].
  - induction (sort_desc docs) as [|p l IH]; simpl; constructor;
      [apply Hsame | exact IH].
  - intros r Hr; apply in_map_iff in Hr; destruct Hr as [p [<- Hp]].
    exists p; split; [|split].
    + exact (Permutation_in _ (sort_desc_perm docs) Hp).
    + apply Hsame.
    + reflexivity.
  - intros p Hp; exists (optimizedProduct p); split; [|apply Hsame].
    apply in_map.
    exact (Permutation_in _ (Permutation_sym (sort_desc_perm docs)) Hp).
Qed.

(** * Further properties of the code *)

Section MoreFacts.

Context {P : Platform}.

Lemma fileFilter_prefix (f : file_part) :
  fileFilter f = None <-> String.prefix "image/" (mimetype f) = true.
Proof.
  unfold fileFilter; destruct (String.prefix "image/" (mimetype f)); split;
    intros H; try reflexivity; discriminate H.
Qed.

(** The error middleware answers 400 or 500, always with a message. *)
Lemma error_handler_shape (e : js_error) :
  exists code m,
    error_handler e = respond code (Message m) /\ (code = 400 \/ code = 500).
Proof.
  destruct e as [code m|errs|m]; simpl.
  - destruct (code =? "LIMIT_FILE_SIZE")%string; eexists; eexists; split;
      try reflexivity; auto.
  - eexists; eexists; split; [reflexivity | right; reflexivity].
  - eexists; eexists; split; [reflexivity | right; reflexivity].
Qed.

(** The two ways a create request ends: turned down, with the database
    untouched, or stored on a connected database. *)
Lemma post_cases (st st' : Server) (env : Env) (req : CreateRequest) (r : Response) :
  post_products st env req = (st', r) ->
  (exists code m,
      r = respond code (Message m) /\ (code = 400 \/ code = 500) /\ db st' = db st)
  \/ (exists p docs,
         r = respond 201 (OneProduct p)
         /\ db st = Connected docs /\ db st' = Connected (docs ++ [p])).
Proof.
  unfold post_products.
  pose proof (upload_single_db st env (req_image req)) as Hdb.
  destruct (upload_single st env (req_image req)) as [mid [e|file]];
    simpl in Hdb.
  - intros H; injection H as <- <-; left.
    destruct (error_handler_shape e) as (code & m & He & Hc).
    exists code, m; auto.
  - unfold create_handler.
    destruct file as [file|];
      [|intros H; injection H as <- <-; left;
        exists 400, "Product image is required"; auto].
    unfold save.
    destruct (validate (new_product (req_body req) file)) as [c|errs].
    + destruct (db mid) as [docs|docs] eqn:Hd.
      * intros H; injection H as <- <-; right.
        eexists; exists docs; split; [reflexivity|].
        split; [symmetry; exact Hdb | reflexivity].
      * intros H; injection H as <- <-; left.
        exists 500, "Server Error"; simpl; auto.
    + intros H; injection H as <- <-; left.
      exists 500, "Server Error"; simpl; auto.
Qed.

(** ** Validation, read backwards *)

Lemma required_string_valid (v : option string) (s : string) :
  required_string v = Valid s -> v = Some s /\ s <> "".
Proof.
  destruct v as [x|]; simpl; [|discriminate].
  destruct (x =? "")%string eqn:E; [discriminate|].
  intros H; injection H as <-; split; [reflexivity|].
  apply String.eqb_neq; exact E.
Qed.

Lemma check_price_valid (v : option string) (n : Num) :
  check_price v = Valid n ->
  exists s, v = Some s /\ s <> "" /\ to_number s = Some n /\ num_ge_zero n = true.
Proof.
  destruct v as [s|]; simpl; [|discriminate].
  destruct (s =? "")%string eqn:E; [discriminate|].
  destruct (to_number s) as [x|] eqn:Hn; [|discriminate].
  destruct (num_ge_zero x) eqn:Hg; [|discriminate].
  intros H; injection H as <-; exists s.
  split; [reflexivity|].
  split; [apply String.eqb_neq; exact E|].
  split; [exact Hn | exact Hg].
Qed.

Lemma check_category_valid (v : option string) (s : string) :
  check_category v = Valid s -> v = Some s /\ In s categories.
Proof.
  unfold check_category.
  destruct (required_string v) as [x|e] eqn:Hr; [|discriminate].
  destruct (in_enum x) eqn:He; [|discriminate].
  intros H; injection H as <-.
  apply required_string_valid in Hr; destruct Hr as [Hv _].
  split; [exact Hv | apply in_enum_spec; exact He].
Qed.

Lemma validate_inv (d : ProductInput) (c : Checked) :
  validate d = inl c ->
  (option_map js_trim (in_name d) = Some (ok_name c) /\ ok_name c <> "")
  /\ (in_description d = Some (ok_description c) /\ ok_description c <> "")
  /\ (exists s, in_price d = Some s /\ s <> ""
                /\ to_number s = Some (ok_price c)
                /\ num_ge_zero (ok_price c) = true)
  /\ (in_category d = Some (ok_category c) /\ In (ok_category c) categories)
  /\ public_id (in_image d) <> "" /\ url (in_image d) <> "".
Proof.
  unfold validate, check_name.
  destruct (required_string (option_map js_trim (in_name d))) as [n|] eqn:Hn;
    [|discriminate].
  destruct (required_string (in_description d)) as [de|] eqn:Hd; [|discriminate].
  destruct (check_price (in_price d)) as [pr|] eqn:Hp; [|discriminate].
  destruct (check_category (in_category d)) as [ca|] eqn:Hc; [|discriminate].
  destruct (required_string (Some (public_id (in_image d)))) as [pid|] eqn:Hi;
    [|discriminate].
  destruct (required_string (Some (url (in_image d)))) as [u|] eqn:Hu;
    [|discriminate].
  intros H; injection H as <-; simpl.
  apply required_string_valid in Hn, Hd, Hi, Hu.
  apply check_price_valid in Hp; apply check_category_valid in Hc.
  destruct Hi as [Hi Hi'], Hu as [Hu Hu'].
  injection Hi as ->; injection Hu as ->.
  repeat split; try tauto; exact Hp.
Qed.

(** ** Runs *)

Lemma handle_cases (st st' : Server) (r : Request) (resp : Response) :
  handle st r = (st', resp) ->
  (db st' = db st /\ created_records [resp] = [] /\ status resp <> 201)
  \/ (exists p docs,
         resp = respond 201 (OneProduct p) /\ created_records [resp] = [p]
         /\ db st = Connected docs /\ db st' = Connected (docs ++ [p])).
Proof.
  destruct r as [env req|]; simpl.
  - intros H; destruct (post_cases _ _ _ _ _ H)
      as [(code & m & -> & Hc & Hdb)|(p & docs & -> & Hd & Hd')].
    + left; split; [exact Hdb|]; split; [reflexivity|].
      simpl; destruct Hc as [-> | ->]; discriminate.
    + right; exists p, docs; auto.
  - intros H; injection H as <- <-; left.
    split; [reflexivity|].
    unfold get_products; destruct (find_sorted (db st)); simpl;
      split; try reflexivity; discriminate.
Qed.

Lemma created_records_cons (resp : Response) (resps : list Response) :
  created_records (resp :: resps)
  = (created_records [resp] ++ created_records resps)%list.
Proof. unfold created_records; simpl; rewrite app_nil_r; reflexivity. Qed.

Lemma run_collection (rs : list Request) :
  forall (st st' : Server) (resps : list Response),
    run st rs = (st', resps) ->
    collection (db st') = (collection (db st) ++ created_records resps)%list
    /\ is_connected (db st') = is_connected (db st)
    /\ length (filter (fun r => status r =? 201) resps)
       = length (created_records resps).
Proof.
  induction rs as [|r rs IH]; simpl; intros st st' resps H.
  - injection H as <- <-; simpl; rewrite app_nil_r; auto.
  - destruct (handle st r) as [st1 resp] eqn:Hh.
    destruct (run st1 rs) as [st2 resps'] eqn:Hr.
    injection H as <- <-.
    destruct (IH _ _ _ Hr) as (Hcol & Hcon & Hlen).
    rewrite created_records_cons, Hcol, Hcon.
    destruct (handle_cases _ _ _ _ Hh)
      as [(Hdb & Hnone & Hst)|(p & docs & -> & Hone & Hd & Hd')].
    + rewrite Hdb, Hnone; simpl.
      apply N.eqb_neq in Hst; rewrite Hst; auto.
    + rewrite Hd, Hd', Hone; simpl.
      rewrite <- app_assoc; simpl; rewrite Hlen; auto.
Qed.

(** A record newer than the whole collection sorts first. *)
Lemma sort_desc_newest (p : Product) (docs : list Product) :
  Forall (fun q => createdAt q < createdAt p) docs ->
  sort_desc (docs ++ [p]) = p :: sort_desc docs.
Proof.
  induction docs as [|q l IH]; simpl; intros H; [reflexivity|].
  inversion H as [|? ? Hq Hl]; subst.
  rewrite (IH Hl); simpl.
  apply N.leb_gt in Hq; rewrite Hq; reflexivity.
Qed.

(** A prefix is what the other string starts with. *)
Lemma prefix_append (a b : string) :
  String.prefix a b = true <-> exists rest, b = (a ++ rest)%string.
Proof.
  revert b; induction a as [|c a IH]; intros b.
  - destruct b; simpl; split; intros _; try reflexivity; eexists; reflexivity.
  - destruct b as [|c' b]; simpl.
    + split; [discriminate | intros [rest H]; discriminate H].
    + destruct (ascii_dec c c') as [->|Hne].
      * rewrite IH; split; intros [rest H]; exists rest.
        -- rewrite H; reflexivity.
        -- injection H as H; exact H.
      * split; [discriminate|].
        intros [rest H]; injection H as H _; symmetry in H; contradiction.
Qed.

(** Every record the create route returns satisfies the schema. *)
Lemma created_well_formed (st st' : Server) (env : Env) (req : CreateRequest)
      (r : Response) (p : Product) :
  post_products st env req = (st', r) ->
  payload r = OneProduct p ->
  well_formed p.
Proof.
  intros H Hp.
  destruct (post_created _ _ _ _ _ _ H Hp)
    as (mid & file & c & docs & _ & Hv & _ & -> & _).
  destruct (validate_inv _ _ Hv)
    as ((_ & Hn) & (_ & Hd) & (s & _ & _ & _ & Hg) & (_ & Hc) & Hi & Hu).
  unfold well_formed; simpl.
  repeat split; assumption.
Qed.

Lemma handle_well_formed (st st' : Server) (r : Request) (resp : Response) :
  handle st r = (st', resp) ->
  Forall well_formed (collection (db st)) ->
  Forall well_formed (collection (db st')).
Proof.
  destruct r as [env req|]; simpl.
  - intros H Hall.
    destruct (post_cases _ _ _ _ _ H)
      as [(code & m & _ & _ & ->)|(p & docs & -> & Hd & Hd')]; [exact Hall|].
    rewrite Hd in Hall; rewrite Hd'; simpl in *.
    apply Forall_app; split; [exact Hall|].
    constructor; [|constructor].
    exact (created_well_formed _ _ _ _ _ _ H eq_refl).
  - intros H; injection H as <- _; intros Hall; exact Hall.
Qed.

End MoreFacts.

(** X1. Whatever the request, the create route answers 201 with a product
    record, or 400 or 500 with a message: no other status, and never a
    failure without a message. *)
Theorem create_response_shape {P : Platform} :
  forall (st : Server) (env : Env) (req : CreateRequest),
    (status (snd (post_products st env req)) = 201
     /\ exists p, payload (snd (post_products st env req)) = OneProduct p)
    \/ ((status (snd (post_products st env req)) = 400
         \/ status (snd (post_products st env req)) = 500)
        /\ exists m, payload (snd (post_products st env req)) = Message m).
Proof.
  intros st env req.
  destruct (post_products st env req) as [st' r] eqn:H; simpl.
  destruct (post_cases _ _ _ _ _ H)
    as [(code & m & -> & Hc & _)|(p & docs & -> & _)]; simpl.
  - right; split; [exact Hc | exists m; reflexivity].
  - left; split; [reflexivity | exists p; reflexivity].
Qed.

(** X2. The create route stores a record and answers 201 exactly when the
    request has a file with an [image/] MIME type below the size limit, the
    media service stored it, the document passes the schema and the
    database is connected; the record is then the validated document and
    the collection grows by it alone. *)
Theorem created_iff {P : Platform} :
  forall (st st' : Server) (env : Env) (req : CreateRequest) (p : Product),
    created st env req st' p
    <-> exists (f : file_part) (id u : string) (c : Checked) (docs : list Product),
        req_image req = Some f
        /\ String.prefix "image/" (mimetype f) = true
        /\ size f < fileSize
        /\ upload_reply env = Uploaded id u
        /\ validate (new_product (req_body req) {| filename := id; path := u |}) = inl c
        /\ db st = Connected docs
        /\ p = stored_document env
                 (new_product (req_body req) {| filename := id; path := u |}) c
        /\ st' = {| db := Connected (docs ++ [p]); media := media st ++ [f];
                    removed := removed st |}.
Proof.
  intros st st' env req p; split.
  - intros Hc.
    destruct (post_created _ _ _ _ _ _ Hc eq_refl)
      as (mid & file & c & docs & Hu & Hv & Hd & Hp & Hst & _).
    destruct (upload_single_file _ _ _ _ _ Hu) as (f & Hf & Hff & Hs & Hr & Hmid).
    destruct file as [id u]; simpl in Hr.
    exists f, id, u, c, docs.
    split; [exact Hf|].
    split; [apply fileFilter_prefix; exact Hff|].
    split; [exact Hs|].
    split; [exact Hr|].
    split; [exact Hv|].
    split; [exact Hd|].
    split; [exact Hp|].
    rewrite Hst, Hmid; reflexivity.
  - intros (f & id & u & c & docs & Hf & Hm & Hs & Hr & Hv & Hd & Hp & Hst).
    unfold created.
    assert (Hu : upload_single st env (req_image req)
                 = ({| db := db st; media := media st ++ [f];
                       removed := removed st |},
                    inr (Some {| filename := id; path := u |}))).
    { rewrite Hf; apply upload_single_accepted;
        [apply fileFilter_prefix; exact Hm | exact Hs | exact Hr]. }
    rewrite (post_valid_document st _ env req _ c docs Hu Hv Hd).
    rewrite Hst, Hp; reflexivity.
Qed.

Lemma created_iff_witness :
  created Demo.empty_server Demo.env1
    (Demo.request Demo.body_honey (Some Demo.photo)) Demo.after_honey Demo.honey.
Proof.
  apply (proj2 (@created_iff Demo.platform Demo.empty_server Demo.after_honey
                  Demo.env1 (Demo.request Demo.body_honey (Some Demo.photo))
                  Demo.honey)).
  exists Demo.photo, (filename Demo.stored_photo), (path Demo.stored_photo).
  eexists; exists [].
  split; [reflexivity|].
  split; [reflexivity|].
  split; [reflexivity|].
  split; [reflexivity|].
  split; [reflexivity|].
  split; [reflexivity|].
  split; reflexivity.
Defined.



(** X4. When the media service fails on an accepted file below the size
    limit, the error middleware answers 500 with the service's own message,
    unchanged; the file went to the media service, no removal is asked for
    and the database is left as it was. *)
Theorem upload_failure_answer {P : Platform} :
  forall (st : Server) (env : Env) (req : CreateRequest) (f : file_part)
         (m : string),
    req_image req = Some f ->
    String.prefix "image/" (mimetype f) = true ->
    size f < fileSize ->
    upload_reply env = UploadFailed m ->
    post_products st env req
    = ({| db := db st; media := media st ++ [f]; removed := removed st |},
       respond 500 (Message m)).
Proof.
  intros st env req f m Hf Hm Hs Hr.
  unfold post_products, upload_single.
  rewrite Hf, (fileFilter_accepts f Hm), Hr.
  apply N.leb_gt in Hs; rewrite Hs; reflexivity.
Qed.

Lemma upload_failure_answer_witness :
  post_products Demo.empty_server Demo.env_failing
    (Demo.request Demo.body_honey (Some Demo.photo))
  = ({| db := db Demo.empty_server;
        media := media Demo.empty_server ++ [Demo.photo];
        removed := removed Demo.empty_server |},
     respond 500 (Message "Invalid image file")).
Proof.
  apply (@upload_failure_answer Demo.platform Demo.empty_server Demo.env_failing
           (Demo.request Demo.body_honey (Some Demo.photo)) Demo.photo).
  - reflexivity.
  - reflexivity.
  - reflexivity.
  - reflexivity.
Defined.

(** X5. No rollback: when the upload succeeded and the request still does
    not end in 201 (the document fails validation or the database is down),
    the answer is 500 "Server Error", no record is written, and the file
    stays with the media service. *)
Theorem failed_save_leaves_asset {P : Platform} :
  forall (st mid : Server) (env : Env) (req : CreateRequest) (file : File),
    upload_single st env (req_image req) = (mid, inr (Some file)) ->
    status (snd (post_products st env req)) <> 201 ->
    exists f,
      req_image req = Some f
      /\ post_products st env req
         = ({| db := db st; media := media st ++ [f]; removed := removed st |},
            respond 500 (Message "Server Error")).
Proof.
  intros st mid env req file Hu Hne.
  destruct (upload_single_file _ _ _ _ _ Hu) as (f & Hf & _ & _ & _ & Hmid).
  exists f; split; [exact Hf|].
  revert Hne; unfold post_products, create_handler, save; rewrite Hu.
  destruct (validate (new_product (req_body req) file)) as [c|errs].
  - rewrite Hmid; simpl.
    destruct (db st) as [docs|docs]; simpl; intros Hne;
      [exfalso; apply Hne; reflexivity | reflexivity].
  - rewrite Hmid; simpl; intros _; reflexivity.
Qed.

Lemma failed_save_leaves_asset_witness :
  exists f,
    req_image (Demo.request Demo.body_sugar (Some Demo.photo)) = Some f
    /\ post_products Demo.empty_server Demo.env1
         (Demo.request Demo.body_sugar (Some Demo.photo))
       = ({| db := db Demo.empty_server; media := media Demo.empty_server ++ [f];
             removed := removed Demo.empty_server |},
          respond 500 (Message "Server Error")).
Proof.
  apply (@failed_save_leaves_asset Demo.platform Demo.empty_server Demo.after_upload
           Demo.env1 (Demo.request Demo.body_sugar (Some Demo.photo))
           Demo.stored_photo).
  - reflexivity.
  - vm_compute; discriminate.
Defined.

(** X6. A file goes to the media service exactly when the request has one
    and its MIME type starts with [image/]: an oversized image is handed
    over before the limit ends the request, and a file of another type or
    an absent file never is. *)
Theorem media_reached {P : Platform} :
  forall (st : Server) (env : Env) (req : CreateRequest),
    media (fst (post_products st env req))
    = match req_image req with
      | Some f => if String.prefix "image/" (mimetype f)
                  then (media st ++ [f])%list else media st
      | None => media st
      end.
Proof.
  intros st env req; unfold post_products, upload_single.
  destruct (req_image req) as [f|]; [|reflexivity].
  unfold fileFilter.
  destruct (String.prefix "image/" (mimetype f)); [|reflexivity].
  destruct (fileSize <=? size f); [reflexivity|].
  destruct (upload_reply env) as [id u|m]; [|reflexivity].
  unfold create_handler.
  destruct (save _ _ _) as [d [e|p]]; reflexivity.
Qed.

(** X7. Serving any sequence of create and list requests only appends: the
    collection afterwards is the collection before followed by the records
    of the create responses, in the order of the responses; nothing stored
    is changed or removed, and the connection state is the one before. *)
Theorem run_appends_created_records {P : Platform} :
  forall (st : Server) (rs : list Request),
    collection (db (fst (run st rs)))
    = (collection (db st) ++ created_records (snd (run st rs)))%list
    /\ is_connected (db (fst (run st rs))) = is_connected (db st).
Proof.
  intros st rs.
  destruct (run st rs) as [st' resps] eqn:H; simpl.
  destruct (run_collection rs st st' resps H) as (Hc & Hn & _).
  split; assumption.
Qed.

(** X8. On a connected database, the list taken after any sequence of
    requests answers 200 with as many records as were stored before plus
    one for each response with status 201. *)
Theorem list_after_run {P : Platform} :
  forall (docs : list Product) (received gone : list file_part)
         (rs : list Request),
  exists out : list Product,
    get_products
      (fst (run {| db := Connected docs; media := received; removed := gone |} rs))
    = respond 200 (ProductList out)
    /\ length out
       = (length docs
          + length (filter (fun r => (status r =? 201)%N)
                      (snd (run {| db := Connected docs; media := received;
                                   removed := gone |} rs))))%nat.
Proof.
  intros docs received gone rs.
  destruct (run {| db := Connected docs; media := received; removed := gone |} rs)
    as [st' resps] eqn:H; simpl.
  destruct (run_collection rs _ st' resps H) as (Hc & Hn & Hl).
  simpl in Hc, Hn.
  unfold get_products.
  destruct (db st') as [docs'|docs']; [|discriminate Hn].
  simpl in Hc; simpl.
  eexists; split; [reflexivity|].
  rewrite length_map, (Permutation_length (sort_desc_perm docs')).
  rewrite Hc, length_app, Hl; reflexivity.
Qed.

(** X9. The schema is an invariant of the collection: if every stored
    document has a name and a description that are not empty, a price not
    below zero, one of the four categories and both image references, then
    so has every document after any sequence of requests. *)
Theorem run_keeps_well_formed {P : Platform} :
  forall (rs : list Request) (st : Server),
    Forall well_formed (collection (db st)) ->
    Forall well_formed (collection (db (fst (run st rs)))).
Proof.
  induction rs as [|r rs IH]; intros st Hall; simpl; [exact Hall|].
  destruct (handle st r) as [st1 resp] eqn:Hh.
  pose proof (handle_well_formed _ _ _ _ Hh Hall) as H1.
  specialize (IH st1 H1).
  destruct (run st1 rs) as [st2 resps]; exact IH.
Qed.

Lemma run_keeps_well_formed_witness :
  Forall well_formed
    (collection
       (db (fst (run Demo.after_honey
                   [CreateProduct Demo.env2
                      (Demo.request Demo.body_jaggery (Some Demo.photo));
                    ListProducts;
                    CreateProduct Demo.env1
                      (Demo.request Demo.body_sugar (Some Demo.photo))])))).
Proof.
  apply (@run_keeps_well_formed Demo.platform).
  constructor; [|constructor].
  unfold well_formed; simpl.
  repeat split; try (intros H; discriminate H).
  right; left; reflexivity.
Defined.

(** X10. A document passes the schema exactly when its name is present and
    not empty once trimmed, its description is present and not empty, its
    price is a text that is not empty, converts to a number and is not below
    zero, its category is one of the four, and its image has a public id and
    a URL; the validated name is the trimmed one, the other paths are as
    sent. *)
Theorem validate_iff {P : Platform} :
  forall (d : ProductInput) (c : Checked),
    validate d = inl c
    <-> (option_map js_trim (in_name d) = Some (ok_name c) /\ ok_name c <> "")
        /\ (in_description d = Some (ok_description c) /\ ok_description c <> "")
        /\ (exists s, in_price d = Some s /\ s <> ""
                      /\ to_number s = Some (ok_price c)
                      /\ num_ge_zero (ok_price c) = true)
        /\ (in_category d = Some (ok_category c) /\ In (ok_category c) categories)
        /\ public_id (in_image d) <> "" /\ url (in_image d) <> "".
Proof.
  intros d c; split; [apply validate_inv|].
  intros ((Hn & Hn') & (Hd & Hd') & (s & Hp & Hp' & Hnum & Hg) & (Hc & Hc') & Hi & Hu).
  rewrite (validate_valid d _ _ s _ _ Hn Hn' Hd Hd' Hp Hp' Hnum Hg Hc Hc' Hi Hu).
  destruct c; reflexivity.
Qed.

(** X11. What a stored record holds: the name is the trimmed text of the
    name field, the description and the category are the texts sent, the
    price is the number the price text converts to, the image references
    are the ones the media service returned, the two timestamps are the
    same clock reading, and the version key is 0. *)
Theorem created_record_fields {P : Platform} :
  forall (st st' : Server) (env : Env) (req : CreateRequest) (p : Product),
    created st env req st' p ->
    (exists n, body_name (req_body req) = Some n /\ name p = js_trim n)
    /\ body_description (req_body req) = Some (description p)
    /\ (exists s, body_price (req_body req) = Some s
                  /\ to_number s = Some (price p))
    /\ body_category (req_body req) = Some (category p)
    /\ upload_reply env = Uploaded (public_id (image p)) (url (image p))
    /\ _id p = fresh_id env
    /\ createdAt p = now env /\ updatedAt p = now env /\ __v p = 0.
Proof.
  intros st st' env req p Hc.
  destruct (post_created _ _ _ _ _ _ Hc eq_refl)
    as (mid & file & c & docs & Hu & Hv & _ & -> & _).
  destruct (upload_single_file _ _ _ _ _ Hu) as (f & _ & _ & _ & Hr & _).
  destruct (validate_inv _ _ Hv)
    as ((Hn & _) & (Hd & _) & (s & Hp & _ & Hnum & _) & (Hcat & _) & _).
  simpl in *.
  split.
  { destruct (body_name (req_body req)) as [n|]; [|discriminate Hn].
    exists n; split; [reflexivity|].
    simpl in Hn; injection Hn as Hn; symmetry; exact Hn. }
  split; [exact Hd|].
  split; [exists s; split; assumption|].
  split; [exact Hcat|].
  split; [exact Hr|].
  repeat split.
Qed.

Lemma created_record_fields_witness :
  (exists n, body_name (req_body (Demo.request Demo.body_honey (Some Demo.photo)))
             = Some n
             /\ name Demo.honey = js_trim (Platform := Demo.platform) n)
  /\ body_description (req_body (Demo.request Demo.body_honey (Some Demo.photo)))
     = Some (description Demo.honey)
  /\ (exists s, body_price (req_body (Demo.request Demo.body_honey (Some Demo.photo)))
                = Some s
                /\ to_number (Platform := Demo.platform) s = Some (price Demo.honey))
  /\ body_category (req_body (Demo.request Demo.body_honey (Some Demo.photo)))
     = Some (category Demo.honey)
  /\ upload_reply Demo.env1
     = Uploaded (public_id (image Demo.honey)) (url (image Demo.honey))
  /\ _id Demo.honey = fresh_id Demo.env1
  /\ createdAt Demo.honey = now Demo.env1
  /\ updatedAt Demo.honey = now Demo.env1 /\ __v Demo.honey = 0.
Proof.
  apply (@created_record_fields Demo.platform Demo.empty_server Demo.after_honey
           Demo.env1 (Demo.request Demo.body_honey (Some Demo.photo)) Demo.honey).
  reflexivity.
Defined.

(** X12. Read your write: when a create succeeds with a clock reading later
    than the creation time of every stored record, the next list is the
    list as it was before, with the new record put first. *)
Theorem newest_created_listed_first {P : Platform} :
  forall (st st' : Server) (env : Env) (req : CreateRequest) (p : Product),
    created st env req st' p ->
    Forall (fun q => createdAt q < now env) (collection (db st)) ->
    exists older : list Product,
      get_products st = respond 200 (ProductList older)
      /\ get_products st' = respond 200 (ProductList (p :: older)).
Proof.
  intros st st' env req p Hc Hnew.
  destruct (post_created _ _ _ _ _ _ Hc eq_refl)
    as (mid & file & c & docs & _ & _ & Hd & Hp & Hst & _).
  assert (Hfix : optimizedProduct p = p) by (rewrite Hp; reflexivity).
  assert (Ht : createdAt p = now env) by (rewrite Hp; reflexivity).
  rewrite Hd in Hnew; simpl in Hnew; rewrite <- Ht in Hnew.
  exists (map optimizedProduct (sort_desc docs)).
  unfold get_products; rewrite Hd, Hst; simpl.
  split; [reflexivity|].
  rewrite (sort_desc_newest p docs Hnew); simpl; rewrite Hfix; reflexivity.
Qed.

Lemma newest_created_listed_first_witness :
  exists older : list (Product (P := Demo.platform)),
    get_products Demo.after_honey = respond 200 (ProductList older)
    /\ get_products {| db := Connected [Demo.honey; Demo.jaggery];
                       media := [Demo.photo; Demo.photo]; removed := [] |}
       = respond 200 (ProductList (Demo.jaggery :: older)).
Proof.
  apply (@newest_created_listed_first Demo.platform Demo.after_honey _ Demo.env2
           (Demo.request Demo.body_jaggery (Some Demo.photo)) Demo.jaggery).
  - reflexivity.
  - constructor; [reflexivity | constructor].
Defined.

(** X13. A create request that does not end in 201 is invisible to readers:
    the list route answers after it exactly as it did before. *)
Theorem failed_create_invisible {P : Platform} :
  forall (st : Server) (env : Env) (req : CreateRequest),
    status (snd (post_products st env req)) <> 201 ->
    get_products (fst (post_products st env req)) = get_products st.
Proof.
  intros st env req.
  destruct (post_products st env req) as [st' r] eqn:H; simpl.
  destruct (post_cases _ _ _ _ _ H)
    as [(code & m & _ & _ & Hdb)|(p & docs & -> & _)].
  - intros _; unfold get_products; rewrite Hdb; reflexivity.
  - intros Hne; exfalso; apply Hne; reflexivity.
Qed.

Lemma failed_create_invisible_witness :
  get_products (fst (post_products Demo.after_honey Demo.env2
                       (Demo.request Demo.body_negative (Some Demo.photo))))
  = get_products Demo.after_honey.
Proof.
  apply (@failed_create_invisible Demo.platform Demo.after_honey Demo.env2
           (Demo.request Demo.body_negative (Some Demo.photo))).
  vm_compute; discriminate.
Defined.

(** X14. The file filter looks at the MIME type only, and accepts exactly
    the types that read [image/] followed by anything, the empty subtype
    included; the comparison is case sensitive. *)
Theorem fileFilter_accepts_iff {P : Platform} :
  forall f : file_part,
    fileFilter f = None <-> exists rest, mimetype f = ("image/" ++ rest)%string.
Proof.
  intros f; rewrite fileFilter_prefix; apply prefix_append.
Qed.

(** X15. A create request whose image upload succeeded is answered 500
    "Server Error", with nothing written, when its name is blank once
    trimmed, its description is empty, or its price is empty, is not a
    number, or is below zero. *)
Theorem create_rejects_unacceptable_values {P : Platform} :
  forall (st mid : Server) (env : Env) (req : CreateRequest) (file : File),
    upload_single st env (req_image req) = (mid, inr (Some file)) ->
    (exists n, body_name (req_body req) = Some n /\ js_trim n = "")
    \/ body_description (req_body req) = Some ""
    \/ body_price (req_body req) = Some ""
    \/ (exists s, body_price (req_body req) = Some s /\ to_number s = None)
    \/ (exists s n, body_price (req_body req) = Some s
                    /\ to_number s = Some n /\ num_ge_zero n = false) ->
    post_products st env req = (mid, respond 500 (Message "Server Error"))
    /\ db mid = db st.
Proof.
  intros st mid env req file Hu Hbad.
  split.
  - destruct (validate (new_product (req_body req) file)) as [c|errs] eqn:Hv;
      [|exact (post_invalid_document st mid env req file errs Hu Hv)].
    exfalso.
    destruct (validate_inv _ _ Hv)
      as ((Hn & Hn') & (Hd & Hd') & (s & Hp & Hp' & Hnum & Hg) & _).
    simpl in Hn, Hd, Hp.
    destruct Hbad as [(n & Hb & Ht)|[Hb|[Hb|[(s' & Hb & Hnone)|(s' & x & Hb & Hx & Hlt)]]]].
    + rewrite Hb in Hn; simpl in Hn; injection Hn as Hn.
      apply Hn'; rewrite <- Hn; exact Ht.
    + rewrite Hb in Hd; injection Hd as Hd; apply Hd'; symmetry; exact Hd.
    + rewrite Hb in Hp; injection Hp as Hp; apply Hp'; symmetry; exact Hp.
    + rewrite Hb in Hp; injection Hp as ->; rewrite Hnone in Hnum; discriminate.
    + rewrite Hb in Hp; injection Hp as ->; rewrite Hx in Hnum.
      injection Hnum as ->; rewrite Hg in Hlt; discriminate.
  - pose proof (upload_single_db st env (req_image req)) as Hdb.
    rewrite Hu in Hdb; exact Hdb.
Qed.

Lemma create_rejects_unacceptable_values_witness :
  post_products Demo.empty_server Demo.env1
    (Demo.request Demo.body_negative (Some Demo.photo))
  = (Demo.after_upload, respond 500 (Message "Server Error"))
  /\ db Demo.after_upload = db Demo.empty_server.
Proof.
  apply (@create_rejects_unacceptable_values Demo.platform Demo.empty_server
           Demo.after_upload Demo.env1
           (Demo.request Demo.body_negative (Some Demo.photo)) Demo.stored_photo).
  - reflexivity.
  - right; right; right; right.
    exists "-5", (-5)%Z; split; [reflexivity|]; split; reflexivity.
Defined.

(** X16. Start-up.  The process comes to listen exactly when the database
    connection succeeded and the listen succeeded, on the text of the [PORT]
    variable when it is set and not empty and on 5000 otherwise.  It exits
    by its own [process.exit] exactly when the connection failed or
    [app.listen] threw, always with status 1.  When the listen fails after
    [app.listen] returned, the error is left unhandled: the code neither
    logs the failure nor exits by itself.  When the connection failed it
    never listens. *)
Theorem startServer_outcomes :
  forall (env_port : option string) (c : Startup.connect_outcome)
         (l : Startup.listen_outcome),
    (snd (Startup.startServer env_port c l) = Some tt
     <-> (exists host, c = Startup.ConnectOk host) /\ l = Startup.ListenOk)
    /\ (forall p, In (Startup.Listening p) (fst (Startup.startServer env_port c l))
                  <-> (exists host, c = Startup.ConnectOk host)
                      /\ l = Startup.ListenOk
                      /\ p = Startup.PORT env_port)
    /\ (forall code, In (Startup.Exit code) (fst (Startup.startServer env_port c l))
                     <-> code = 1
                         /\ ((exists e, c = Startup.ConnectFailed e)
                             \/ ((exists host, c = Startup.ConnectOk host)
                                 /\ exists e, l = Startup.ListenThrows e)))
    /\ (forall e, In (Startup.Uncaught e) (fst (Startup.startServer env_port c l))
                  <-> (exists host, c = Startup.ConnectOk host)
                      /\ l = Startup.ListenFailsLater e)
    /\ (forall d, In (Startup.LogError "Failed to start server:" d)
                     (fst (Startup.startServer env_port c l))
                  <-> (exists host, c = Startup.ConnectOk host)
                      /\ l = Startup.ListenThrows d)
    /\ (Startup.PORT env_port = inr 5000
        <-> env_port = None \/ env_port = Some "")
    /\ (forall s, Startup.PORT env_port = inl s
                  <-> env_port = Some s /\ s <> "").
Proof.
  intros env_port c l.
  split; [|split; [|split; [|split; [|split; [|split]]]]].
  - destruct c as [host|e], l as [|e'|e']; simpl;
      firstorder (try congruence); eauto.
  - intros p; destruct c as [host|e], l as [|e'|e']; simpl;
      firstorder (try congruence); eauto.
  - intros code; destruct c as [host|e], l as [|e'|e']; simpl;
      firstorder (try congruence); eauto.
  - intros x; destruct c as [host|e], l as [|e'|e']; simpl;
      firstorder (try congruence); eauto.
  - intros x; destruct c as [host|e], l as [|e'|e']; simpl;
      firstorder (try congruence); eauto.
  - unfold Startup.PORT; destruct env_port as [s|].
    + destruct (s =? "")%string eqn:E.
      * apply String.eqb_eq in E; subst s; split; auto.
      * apply String.eqb_neq in E; split; [intros H; discriminate H|].
        intros [H|H]; [discriminate H|].
        injection H as H; contradiction.
    + split; auto.
  - intros s; unfold Startup.PORT; destruct env_port as [s'|].
    + destruct (s' =? "")%string eqn:E.
      * apply String.eqb_eq in E; subst s'; split; [intros H; discriminate H|].
        intros [H Hne]; injection H as <-; contradiction.
      * apply String.eqb_neq in E; split.
        -- intros H; injection H as <-; split; [reflexivity | exact E].
        -- intros [H _]; injection H as <-; reflexivity.
    + split; [intros H; discriminate H | intros [H _]; discriminate H].
Qed.

